(** * Mach9 HTTP protocol: a shallow embedding of [mach9/http.py]

    The class [HttpProtocol] is modelled as a state record [proto] threaded
    through a small state-and-exception monad [M].  Side effects on the
    transport and on the event loop (writes, close, timers, task
    cancellation, log lines) are appended to an event trace.  Byte strings
    are Stdlib [string]s (one [ascii] per byte); integers are [Z]; lengths
    are [nat] as Python's [len].  Code that lives outside [http.py]
    (httptools' parser, the application's error handler, the access log)
    enters as Section variables, i.e. is universally quantified. *)

From Stdlib Require Import String Ascii List ZArith Bool Lia.
Import ListNotations.
Open Scope string_scope.

Module Http.

Definition bytes := string.
Definition header := (bytes * bytes)%type.

Definition crlf : bytes := String (ascii_of_nat 13) (String (ascii_of_nat 10) EmptyString).

(** ** Number formatting: [str(n)], ['%d'] and ['%x'] *)

Definition digit_chars : string := "0123456789abcdef".

Definition digit_char (d : nat) : ascii :=
  match String.get d digit_chars with Some c => c | None => "?"%char end.

Fixpoint str_base_aux (base fuel n : nat) (acc : string) : string :=
  match fuel with
  | O => acc
  | S f =>
      let acc' := String (digit_char (n mod base)) acc in
      if Nat.ltb n base then acc' else str_base_aux base f (n / base) acc'
  end.

(** [str(n).encode()] for a natural number. *)
Definition str_nat (n : nat) : bytes := str_base_aux 10 (S n) n "".

(** ['%x' % n]: lower-case hexadecimal. *)
Definition str_hex (n : nat) : bytes := str_base_aux 16 (S n) n "".

(** ['%d' % z] for an integer. *)
Definition str_Z (z : Z) : bytes :=
  if (z <? 0)%Z then "-" ++ str_nat (Z.to_nat (- z)) else str_nat (Z.to_nat z).

(** ** [bytes.lower()] (ASCII letters only) *)

Definition lower_char (c : ascii) : ascii :=
  let n := nat_of_ascii c in
  if Nat.leb 65 n && Nat.leb n 90 then ascii_of_nat (n + 32) else c.

Fixpoint lower (s : bytes) : bytes :=
  match s with
  | EmptyString => EmptyString
  | String c r => String (lower_char c) (lower r)
  end.

(** ** [int(value)] on a byte string: surrounding ASCII whitespace, an
    optional sign, decimal digits, single underscores between digits
    (PEP 515); [None] stands for [ValueError]. *)

Definition is_space (c : ascii) : bool :=
  let n := nat_of_ascii c in Nat.eqb n 32 || (Nat.leb 9 n && Nat.leb n 13).

Fixpoint lstrip (s : bytes) : bytes :=
  match s with
  | String c r => if is_space c then lstrip r else s
  | EmptyString => EmptyString
  end.

Definition strip (s : bytes) : bytes :=
  string_of_list_ascii (rev (list_ascii_of_string
    (lstrip (string_of_list_ascii (rev (list_ascii_of_string (lstrip s))))))).

Fixpoint digits_value (s : bytes) (acc : Z) : option Z :=
  match s with
  | EmptyString => Some acc
  | String c r =>
      let n := nat_of_ascii c in
      if Nat.leb 48 n && Nat.leb n 57
      then digits_value r (acc * 10 + Z.of_nat (n - 48))%Z
      else None
  end.

Definition is_digit (c : ascii) : bool :=
  let n := nat_of_ascii c in Nat.leb 48 n && Nat.leb n 57.

Definition starts_with_digit (s : bytes) : bool :=
  match s with String c _ => is_digit c | EmptyString => false end.

(** Removes the underscores of a numeral, failing on an underscore that
    is not between two digits. *)
Fixpoint drop_underscores (s : bytes) : option bytes :=
  match s with
  | EmptyString => Some EmptyString
  | String c r =>
      if Ascii.eqb c "_"%char then None
      else match r with
           | EmptyString => Some (String c EmptyString)
           | String u r1 =>
               if Ascii.eqb u "_"%char then
                 if is_digit c && starts_with_digit r1
                 then option_map (String c) (drop_underscores r1)
                 else None
               else option_map (String c) (drop_underscores r)
           end
  end.

Definition unsigned_int (s : bytes) : option Z :=
  match drop_underscores s with
  | Some EmptyString | None => None
  | Some t => digits_value t 0
  end.

Definition py_int (value : bytes) : option Z :=
  match strip value with
  | String "+"%char r => unsigned_int r
  | String "-"%char r => option_map Z.opp (unsigned_int r)
  | s => unsigned_int s
  end.

(** ** [mach9.response.ALL_STATUS_CODES] *)

Definition ALL_STATUS_CODES : list (Z * bytes) :=
  [(100, "Continue"); (101, "Switching Protocols"); (102, "Processing");
   (200, "OK"); (201, "Created"); (202, "Accepted");
   (203, "Non-Authoritative Information"); (204, "No Content");
   (205, "Reset Content"); (206, "Partial Content"); (207, "Multi-Status");
   (208, "Already Reported"); (226, "IM Used");
   (300, "Multiple Choices"); (301, "Moved Permanently"); (302, "Found");
   (303, "See Other"); (304, "Not Modified"); (305, "Use Proxy");
   (307, "Temporary Redirect"); (308, "Permanent Redirect");
   (400, "Bad Request"); (401, "Unauthorized"); (402, "Payment Required");
   (403, "Forbidden"); (404, "Not Found"); (405, "Method Not Allowed");
   (406, "Not Acceptable"); (407, "Proxy Authentication Required");
   (408, "Request Timeout"); (409, "Conflict"); (410, "Gone");
   (411, "Length Required"); (412, "Precondition Failed");
   (413, "Request Entity Too Large"); (414, "Request-URI Too Long");
   (415, "Unsupported Media Type"); (416, "Requested Range Not Satisfiable");
   (417, "Expectation Failed"); (422, "Unprocessable Entity");
   (423, "Locked"); (424, "Failed Dependency"); (426, "Upgrade Required");
   (428, "Precondition Required"); (429, "Too Many Requests");
   (431, "Request Header Fields Too Large");
   (500, "Internal Server Error"); (501, "Not Implemented");
   (502, "Bad Gateway"); (503, "Service Unavailable");
   (504, "Gateway Timeout"); (505, "HTTP Version Not Supported");
   (506, "Variant Also Negotiates"); (507, "Insufficient Storage");
   (508, "Loop Detected"); (510, "Not Extended");
   (511, "Network Authentication Required")]%Z.

Fixpoint status_lookup (st : Z) (t : list (Z * bytes)) : option bytes :=
  match t with
  | [] => None
  | (k, r) :: t' => if Z.eqb k st then Some r else status_lookup st t'
  end.

(** ** [HttpProtocol.check_headers] *)

Record header_check := {
  connection_close : bool;
  content_length : bool
}.

Fixpoint check_headers_loop (hs : list header) (cc cl : bool) : header_check :=
  match hs with
  | [] => {| connection_close := cc; content_length := cl |}
  | (key, value) :: rest =>
      let cc' := if String.eqb key "Connection" && String.eqb value "close"
                 then true else cc in
      let cl' := if String.eqb key "Content-Length" then true else cl in
      check_headers_loop rest cc' cl'
  end.

Definition check_headers (hs : list header) : header_check :=
  check_headers_loop hs false false.

(** ** Connection state *)

(** [httptools.HttpRequestParser]: only its keep-alive negotiation is read
    by the modelled methods. *)
Record parser := { should_keep_alive : bool }.

(** Exceptions raised in Python. *)
Inductive exn :=
| RuntimeError | AttributeError | TypeError | KeyError | ValueError
| UnboundLocalError | HttpParserUpgrade | HttpParserError
| OtherError (what : string).

(** The [mach9.exceptions] conditions handed to [write_error]. *)
Inductive condition :=
| RequestTimeout (msg : string)
| PayloadTooLarge (msg : string)
| InvalidUsage (msg : string)
| ServerError (msg : string).

(** Observable effects on the transport and on the event loop. *)
Inductive event :=
| EWrite (b : bytes)          (* transport.write(b) *)
| EClose                      (* transport.close() *)
| ECallLater (delay : Z)      (* loop.call_later(delay, self.connection_timeout) *)
| ECancel (task : nat)        (* task.cancel() *)
| ELog (line : string).       (* log.error / log.debug *)

(** The attributes of [HttpProtocol] read or written by the modelled
    methods, plus the trace of effects.  [keep_alive_flag] is
    [self._keep_alive]; [stopped] is the shared [signal.stopped]; [now] is
    what [self.get_current_time()] returns. *)
Record proto := {
  trace : list event;
  stopped : bool;
  parser_ : option parser;
  headers : option (list header);
  keep_alive_flag : bool;
  has_log : bool;
  request_timeout : option Z;
  request_max_size : Z;
  total_request_size : Z;
  timeout_handler : option Z;
  last_request_time : option Z;
  now : Z;
  request_handler_task : option nat;
  request_stream_task : option nat;
  is_upgrade : bool
}.

Definition emit_ (e : event) (s : proto) : proto :=
  {| trace := app (trace s) [e]; stopped := stopped s; parser_ := parser_ s;
     headers := headers s; keep_alive_flag := keep_alive_flag s;
     has_log := has_log s; request_timeout := request_timeout s;
     request_max_size := request_max_size s;
     total_request_size := total_request_size s;
     timeout_handler := timeout_handler s;
     last_request_time := last_request_time s; now := now s;
     request_handler_task := request_handler_task s;
     request_stream_task := request_stream_task s; is_upgrade := is_upgrade s |}.

Definition set_keep_alive_flag (b : bool) (s : proto) : proto :=
  {| trace := trace s; stopped := stopped s; parser_ := parser_ s;
     headers := headers s; keep_alive_flag := b;
     has_log := has_log s; request_timeout := request_timeout s;
     request_max_size := request_max_size s;
     total_request_size := total_request_size s;
     timeout_handler := timeout_handler s;
     last_request_time := last_request_time s; now := now s;
     request_handler_task := request_handler_task s;
     request_stream_task := request_stream_task s; is_upgrade := is_upgrade s |}.

Definition set_parser_headers (p : option parser) (h : option (list header))
    (s : proto) : proto :=
  {| trace := trace s; stopped := stopped s; parser_ := p;
     headers := h; keep_alive_flag := keep_alive_flag s;
     has_log := has_log s; request_timeout := request_timeout s;
     request_max_size := request_max_size s;
     total_request_size := total_request_size s;
     timeout_handler := timeout_handler s;
     last_request_time := last_request_time s; now := now s;
     request_handler_task := request_handler_task s;
     request_stream_task := request_stream_task s; is_upgrade := is_upgrade s |}.

Definition set_total_request_size (n : Z) (s : proto) : proto :=
  {| trace := trace s; stopped := stopped s; parser_ := parser_ s;
     headers := headers s; keep_alive_flag := keep_alive_flag s;
     has_log := has_log s; request_timeout := request_timeout s;
     request_max_size := request_max_size s;
     total_request_size := n;
     timeout_handler := timeout_handler s;
     last_request_time := last_request_time s; now := now s;
     request_handler_task := request_handler_task s;
     request_stream_task := request_stream_task s; is_upgrade := is_upgrade s |}.

Definition set_timeout_handler (h : option Z) (s : proto) : proto :=
  {| trace := trace s; stopped := stopped s; parser_ := parser_ s;
     headers := headers s; keep_alive_flag := keep_alive_flag s;
     has_log := has_log s; request_timeout := request_timeout s;
     request_max_size := request_max_size s;
     total_request_size := total_request_size s;
     timeout_handler := h;
     last_request_time := last_request_time s; now := now s;
     request_handler_task := request_handler_task s;
     request_stream_task := request_stream_task s; is_upgrade := is_upgrade s |}.

Definition set_last_request_time (t : option Z) (s : proto) : proto :=
  {| trace := trace s; stopped := stopped s; parser_ := parser_ s;
     headers := headers s; keep_alive_flag := keep_alive_flag s;
     has_log := has_log s; request_timeout := request_timeout s;
     request_max_size := request_max_size s;
     total_request_size := total_request_size s;
     timeout_handler := timeout_handler s;
     last_request_time := t; now := now s;
     request_handler_task := request_handler_task s;
     request_stream_task := request_stream_task s; is_upgrade := is_upgrade s |}.

Definition set_is_upgrade (b : bool) (s : proto) : proto :=
  {| trace := trace s; stopped := stopped s; parser_ := parser_ s;
     headers := headers s; keep_alive_flag := keep_alive_flag s;
     has_log := has_log s; request_timeout := request_timeout s;
     request_max_size := request_max_size s;
     total_request_size := total_request_size s;
     timeout_handler := timeout_handler s;
     last_request_time := last_request_time s; now := now s;
     request_handler_task := request_handler_task s;
     request_stream_task := request_stream_task s; is_upgrade := b |}.

(** [HttpProtocol.cleanup] (the [url], [body_channel] and [message]
    attributes it also resets are not read by the modelled methods). *)
Definition cleanup_ (s : proto) : proto :=
  {| trace := trace s; stopped := stopped s; parser_ := None;
     headers := None; keep_alive_flag := keep_alive_flag s;
     has_log := has_log s; request_timeout := request_timeout s;
     request_max_size := request_max_size s;
     total_request_size := 0%Z;
     timeout_handler := timeout_handler s;
     last_request_time := last_request_time s; now := now s;
     request_handler_task := None;
     request_stream_task := None; is_upgrade := is_upgrade s |}.

(** ** A state-and-exception monad *)

Inductive result (A : Type) := Ok (a : A) | Raise (e : exn).
Arguments Ok {A} a.
Arguments Raise {A} e.

Definition M (A : Type) := proto -> proto * result A.

Definition ret {A} (a : A) : M A := fun s => (s, Ok a).
Definition raise {A} (e : exn) : M A := fun s => (s, Raise e).
Definition bind {A B} (m : M A) (k : A -> M B) : M B :=
  fun s => match m s with
           | (s', Ok a) => k a s'
           | (s', Raise e) => (s', Raise e)
           end.
Definition gets {A} (f : proto -> A) : M A := fun s => (s, Ok (f s)).
Definition modify (f : proto -> proto) : M unit := fun s => (f s, Ok tt).
Definition emit (e : event) : M unit := modify (emit_ e).

Declare Scope monad_scope.
Notation "x <- c1 ;; c2" := (bind c1 (fun x => c2))
  (at level 61, c1 at next level, right associativity) : monad_scope.
Notation "c1 ;; c2" := (bind c1 (fun _ : unit => c2))
  (at level 61, right associativity) : monad_scope.
Open Scope monad_scope.

(** [try: body except e: handler(e)] *)
Definition try_except {A} (body : M A) (handler : exn -> M A) : M A :=
  fun s => match body s with
           | (s', Ok a) => (s', Ok a)
           | (s', Raise e) => handler e s'
           end.

(** [try: body except e: handler(e) finally: fin] *)
Definition try_except_finally {A} (body : M A) (handler : exn -> M A)
    (fin : M unit) : M A :=
  fun s => let '(s2, r) := try_except body handler s in
           match fin s2 with
           | (s3, Ok _) => (s3, r)
           | (s3, Raise e) => (s3, Raise e)
           end.

(** ** Response messages (ASGI dicts) *)

(** [None] is a missing key (or, for [.get], a value [None]). *)
Record message := {
  m_status : option Z;
  m_headers : option (list header);
  m_content : option bytes;
  m_more_content : option bool
}.

(** ** [HttpProtocol] methods *)

(** The property [keep_alive]. *)
Definition keep_alive : M bool :=
  gets (fun s => keep_alive_flag s && negb (stopped s)
                 && match parser_ s with
                    | Some p => should_keep_alive p
                    | None => false
                    end).

Definition after_write (more_content keep_alive : bool) : M unit :=
  if negb more_content && negb keep_alive then emit EClose
  else if negb more_content && keep_alive then
    t <- gets now ;;
    modify (set_last_request_time (Some t)) ;;
    modify cleanup_
  else ret tt.

Definition is_response_chunk (m : message) : bool :=
  match m_status m, m_headers m with
  | None, None => true
  | _, _ => false
  end.

Fixpoint join_headers (hs : list header) : bytes :=
  match hs with
  | [] => ""
  | (key, value) :: rest =>
      if String.eqb key "Connection" then join_headers rest
      else key ++ ": " ++ value ++ crlf ++ join_headers rest
  end.

Definition make_header_content (headers : option (list header))
    (result_headers : header_check) (content : option bytes)
    (more_content : bool) : M bytes :=
  match headers with
  | None => ret ""
  | Some hs =>
      prefix <- (if negb more_content && negb (content_length result_headers)
                 then match content with
                      | Some c => ret ("Content-Length: " ++ str_nat (String.length c) ++ crlf)
                      | None => raise TypeError         (* len(None) *)
                      end
                 else ret "") ;;
      ret (prefix ++ join_headers hs)
  end.

(** [b'HTTP/1.1 %d %b\r\nConnection: %b\r\n%b%b\r\n%b' % (...)] *)
Definition response_bytes (status : Z) (reason : bytes) (keep_alive : bool)
    (timeout_header header_content content : bytes) : bytes :=
  "HTTP/1.1 " ++ str_Z status ++ " " ++ reason ++ crlf ++
  "Connection: " ++ (if keep_alive then "keep-alive" else "close") ++ crlf ++
  timeout_header ++ header_content ++ crlf ++ content.

Definition send (m : message) : M unit :=
  let status := m_status m in
  let headers := m_headers m in
  let content := m_content m in
  let more_content := match m_more_content m with Some b => b | None => false end in
  (* [result_headers] is bound only when [headers is not None] *)
  result_headers <- (match headers with
                     | Some hs =>
                         let r := check_headers hs in
                         (if connection_close r
                          then modify (set_keep_alive_flag false) else ret tt) ;;
                         ret (Some r)
                     | None => ret None
                     end) ;;
  ka <- keep_alive ;;
  if is_response_chunk m then
    match content with
    | None => raise TypeError                                  (* len(None) *)
    | Some c =>
        let content_length := String.length c in
        if more_content && Nat.ltb 0 content_length then
          emit (EWrite (str_hex content_length ++ crlf ++ c ++ crlf)) ;;
          after_write more_content ka
        else if negb more_content then
          emit (EWrite ("0" ++ crlf ++ crlf)) ;;
          after_write more_content ka
        else ret tt
    end
  else
    keep_alive_timeout <- gets request_timeout ;;
    let timeout_header :=
      match ka, keep_alive_timeout with
      | true, Some t => "Keep-Alive: " ++ str_Z t ++ crlf
      | _, _ => ""
      end in
    rh <- (match result_headers with
           | Some r => ret r
           | None => raise UnboundLocalError
           end) ;;
    header_content <- make_header_content headers rh content more_content ;;
    match status with
    | None => raise KeyError                            (* ALL_STATUS_CODES[None] *)
    | Some st =>
        match status_lookup st ALL_STATUS_CODES with
        | None => raise KeyError
        | Some reason =>
            match content with
            | None => raise TypeError                   (* '%b' % None *)
            | Some c =>
                emit (EWrite (response_bytes st reason ka timeout_header
                                             header_content c)) ;;
                after_write more_content ka
            end
        end
    end.

Definition close_if_idle : M bool :=
  p <- gets parser_ ;;
  match p with
  | None => emit EClose ;; ret true
  | Some _ => ret false
  end.

(** ** Methods that depend on code outside [http.py] *)

Section WithEnvironment.

(** Building the error response: [self.request_class(self.message)] when a
    request message exists, [self.error_handler.response(request,
    exception)] and [response.get_message(False)]; any of them may raise. *)
Variable prepare_error : condition -> M message.
(** The access-log block of [write_error] run when [self.has_log]. *)
Variable log_access : M unit.
(** [self.parser.feed_data(data)], with the callbacks httptools runs. *)
Variable feed_data : bytes -> M unit.
(** A fresh [HttpRequestParser(self)]. *)
Variable fresh_parser : parser.
(** [mach9.websocket.upgrade_to_websocket(self)]. *)
Variable upgrade_to_websocket : M unit.

(** [self.bail_out(message, from_error=True)]: only the two log lines. *)
Definition bail_out_from_error (e : exn) : M unit :=
  emit (ELog "Transport closed and exception experienced during error handling") ;;
  emit (ELog "Exception").

Definition write_error (exception : condition) : M unit :=
  try_except_finally
    (msg <- prepare_error exception ;;
     send msg ;;
     hl <- gets has_log ;;
     if hl then log_access else ret tt)
    (fun e => match e with
              | RuntimeError =>
                  (* the handler's message reads [self.request], an attribute
                     the protocol never has *)
                  raise AttributeError
              | _ => bail_out_from_error e
              end)
    (emit EClose).

Definition connection_timeout : M unit :=
  t <- gets now ;;
  last <- gets last_request_time ;;
  match last with
  | None => raise TypeError
  | Some l =>
      let time_elapsed := (t - l)%Z in
      rt <- gets request_timeout ;;
      match rt with
      | None => raise TypeError
      | Some timeout =>
          if Z.ltb time_elapsed timeout then
            let time_left := (timeout - time_elapsed)%Z in
            emit (ECallLater time_left) ;;
            modify (set_timeout_handler (Some time_left))
          else
            st <- gets request_stream_task ;;
            (match st with Some k => emit (ECancel k) | None => ret tt end) ;;
            ht <- gets request_handler_task ;;
            (match ht with Some k => emit (ECancel k) | None => ret tt end) ;;
            write_error (RequestTimeout "Request Timeout")
      end
  end.

(** The parsing half of [data_received], after the size check. *)
Definition data_received_parse (data : bytes) : M unit :=
  p <- gets parser_ ;;
  (match p with
   | None => modify (set_parser_headers (Some fresh_parser) (Some []))
   | Some _ => ret tt
   end) ;;
  try_except (feed_data data)
    (fun e => match e with
              | HttpParserUpgrade => upgrade_to_websocket
              | HttpParserError => write_error (InvalidUsage "Bad Request")
              | e => raise e
              end).

Definition data_received (data : bytes) : M unit :=
  modify (fun s => set_total_request_size
                     (total_request_size s + Z.of_nat (String.length data))%Z s) ;;
  too_large <- gets (fun s => Z.ltb (request_max_size s) (total_request_size s)) ;;
  (if too_large then write_error (PayloadTooLarge "Payload Too Large") else ret tt) ;;
  data_received_parse data.

(** The tail of [on_header] after the content-length ceiling check:
    upgrade detection and the append to [self.headers]. *)
Definition on_header_store (name value : bytes) : M unit :=
  (if String.eqb name "upgrade" then modify (set_is_upgrade true) else ret tt) ;;
  hs <- gets headers ;;
  match hs with
  | None => raise AttributeError                (* None.append *)
  | Some l => modify (fun s => set_parser_headers (parser_ s) (Some (app l [(name, value)])) s)
  end.

Definition on_header (name value : bytes) : M unit :=
  let name := lower name in
  (if String.eqb name "content-length" then
     match py_int value with
     | None => raise ValueError
     | Some n =>
         mx <- gets request_max_size ;;
         if Z.ltb mx n then write_error (PayloadTooLarge "Payload Too Large")
         else ret tt
     end
   else ret tt) ;;
  on_header_store name value.

End WithEnvironment.

End Http.

(** * Callers and callees of [HttpProtocol] in other modules *)

(** Python dicts with string keys as association lists in insertion
    order: assignment to an existing key keeps its position. *)
Module PyDict.
Import Http.

Fixpoint dict_get (k : string) (d : list (string * string)) (default : string) : string :=
  match d with
  | [] => default
  | (k', v) :: d' => if String.eqb k' k then v else dict_get k d' default
  end.

Fixpoint dict_set (k v : string) (d : list (string * string)) : list (string * string) :=
  match d with
  | [] => [(k, v)]
  | (k', v') :: d' => if String.eqb k' k then (k', v) :: d' else (k', v') :: dict_set k v d'
  end.

End PyDict.

(** [mach9.response.HTTPResponse]: its constructor, [_parse_headers] and
    [get_message], the response [write_error] sends.  Text bodies and
    header values are byte strings here, so [str.encode()] is the
    identity. *)
Module Response.
Import Http PyDict.

Record http_response := {
  body : bytes;
  status : Z;
  content_type : string;
  resp_headers : list (string * string)
}.

Definition HTTPResponse (body_ : option string) (status_ : Z)
    (headers_ : option (list (string * string))) (content_type_ : string)
    (body_bytes : bytes) : http_response :=
  let b := match body_ with Some t => t | None => body_bytes end in
  let hs := match headers_ with Some h => h | None => [] end in
  {| body := b; status := status_; content_type := content_type_;
     resp_headers := dict_set "Content-Type" (dict_get "Content-Type" hs content_type_) hs |}.

Definition parse_headers (r : http_response) : list header :=
  map (fun nv => (fst nv, snd nv)) (resp_headers r).

Definition get_message (r : http_response) (more_content : bool) : message :=
  {| m_status := Some (status r); m_content := Some (body r);
     m_headers := Some (parse_headers r); m_more_content := Some more_content |}.

End Response.

(** * Properties *)

Module HttpFacts.
Import Http.

(** A connection in the middle of a request, used by the examples. *)
Definition base_state (ka stop : bool) (p : option parser)
    (hs : option (list header)) : proto :=
  {| trace := []; stopped := stop; parser_ := p; headers := hs;
     keep_alive_flag := ka; has_log := false; request_timeout := Some 60%Z;
     request_max_size := 100%Z; total_request_size := 0%Z;
     timeout_handler := None; last_request_time := Some 0%Z; now := 0%Z;
     request_handler_task := None; request_stream_task := None;
     is_upgrade := false |}.

Example str_nat_123 : str_nat 123 = "123". Proof. reflexivity. Qed.
Example str_hex_255 : str_hex 255 = "ff". Proof. reflexivity. Qed.
Example str_hex_0 : str_hex 0 = "0". Proof. reflexivity. Qed.
Example py_int_spaces : py_int " +42 " = Some 42%Z. Proof. reflexivity. Qed.
Example py_int_bad : py_int "4x" = None. Proof. reflexivity. Qed.
Example py_int_underscores : py_int " 1_000 " = Some 1000%Z. Proof. reflexivity. Qed.
Example py_int_bad_underscores :
  py_int "1__0" = None /\ py_int "_1" = None /\ py_int "1_" = None /\ py_int "-_1" = None.
Proof. repeat split; reflexivity. Qed.
Example lower_cl : lower "Content-Length" = "content-length". Proof. reflexivity. Qed.

(** ** Decimal numerals *)

(** [str_nat n] is the decimal numeral of [n]. *)
Lemma digit_char_value d : d < 10 -> nat_of_ascii (digit_char d) = 48 + d.
Proof.
  intros H. do 10 (destruct d as [|d]; [reflexivity|]). lia.
Qed.

Lemma digits_value_digit d r z :
  d < 10 ->
  digits_value (String (digit_char d) r) z = digits_value r (z * 10 + Z.of_nat d)%Z.
Proof.
  intros H. simpl. rewrite (digit_char_value d H).
  replace (Nat.leb 48 (48 + d)) with true by (symmetry; apply Nat.leb_le; lia).
  replace (Nat.leb (48 + d) 57) with true by (symmetry; apply Nat.leb_le; lia).
  simpl. do 3 f_equal. lia.
Qed.

Lemma str_base_aux_S b f n acc :
  str_base_aux b (S f) n acc =
    if Nat.ltb n b then String (digit_char (n mod b)) acc
    else str_base_aux b f (n / b) (String (digit_char (n mod b)) acc).
Proof. reflexivity. Qed.

Lemma str_base_aux_value f n acc z :
  n < f ->
  exists k : nat, digits_value (str_base_aux 10 f n acc) z
            = digits_value acc (z * 10 ^ Z.of_nat k + Z.of_nat n)%Z.
Proof.
  revert n acc z; induction f as [|f IH]; intros n acc z Hn; [lia|].
  rewrite str_base_aux_S.
  assert (Hm : n mod 10 < 10) by (apply Nat.mod_upper_bound; lia).
  pose proof (Nat.div_mod n 10 ltac:(lia)) as Hdm.
  destruct (Nat.ltb n 10) eqn:E.
  - apply Nat.ltb_lt in E. exists 1.
    rewrite digits_value_digit by exact Hm.
    rewrite Nat.mod_small by exact E. f_equal; lia.
  - apply Nat.ltb_ge in E.
    assert (Hd : n / 10 < f) by (apply Nat.Div0.div_lt_upper_bound; lia).
    destruct (IH (n / 10) (String (digit_char (n mod 10)) acc) z Hd) as [k Hk].
    rewrite Hk, digits_value_digit by exact Hm.
    exists (S k). f_equal.
    rewrite Nat2Z.inj_succ, Z.pow_succ_r by lia. rewrite Hdm at 3. lia.
Qed.

Lemma str_nat_value n : digits_value (str_nat n) 0 = Some (Z.of_nat n).
Proof.
  unfold str_nat. destruct (str_base_aux_value (S n) n "" 0 ltac:(lia)) as [k Hk].
  rewrite Hk. reflexivity.
Qed.

Lemma str_app_assoc (a b c : string) : (a ++ b) ++ c = a ++ (b ++ c).
Proof. induction a as [|x a IH]; simpl; [reflexivity | now rewrite IH]. Qed.

(** [t] occurs in [w]. *)
Definition contains (w t : bytes) : Prop := exists p q, w = p ++ t ++ q.

Lemma response_bytes_eq st reason ka th hc c :
  response_bytes st reason ka th hc c =
    "HTTP/1.1 " ++ str_Z st ++ " " ++ reason ++ crlf ++
    "Connection: " ++ (if ka then "keep-alive" else "close") ++ crlf ++
    th ++ hc ++ crlf ++ c.
Proof. reflexivity. Qed.

Lemma contains_response st reason ka th t jh c :
  contains (response_bytes st reason ka th (t ++ jh) c) t.
Proof.
  exists ("HTTP/1.1 " ++ str_Z st ++ " " ++ reason ++ crlf ++
          "Connection: " ++ (if ka then "keep-alive" else "close") ++ crlf ++ th),
         (jh ++ crlf ++ c).
  rewrite response_bytes_eq. repeat rewrite str_app_assoc. reflexivity.
Qed.

(** ** Shape lemmas for [send] *)

#[local] Opaque status_lookup str_nat str_hex str_Z crlf response_bytes join_headers.

Lemma after_write_trace more ka s :
  snd (after_write more ka s) = Ok tt /\
  trace (fst (after_write more ka s)) =
    app (trace s) (if negb more && negb ka then [EClose] else []).
Proof. destruct more, ka; simpl; auto using app_nil_r. Qed.

Lemma set_keep_alive_flag_same s : set_keep_alive_flag (keep_alive_flag s) s = s.
Proof. destruct s; reflexivity. Qed.

(** A message with a status, headers and content: one write of the whole
    response, then [after_write]. *)
Lemma send_response s m st reason hs c :
  m_status m = Some st -> status_lookup st ALL_STATUS_CODES = Some reason ->
  m_headers m = Some hs -> m_content m = Some c ->
  let more := match m_more_content m with Some b => b | None => false end in
  let rh := check_headers hs in
  let ka := keep_alive_flag s && negb (connection_close rh) && negb (stopped s)
            && match parser_ s with Some p => should_keep_alive p | None => false end in
  let th := match ka, request_timeout s with
            | true, Some t => "Keep-Alive: " ++ str_Z t ++ crlf
            | _, _ => "" end in
  let hc := (if negb more && negb (content_length rh)
             then "Content-Length: " ++ str_nat (String.length c) ++ crlf
             else "") ++ join_headers hs in
  send m s = after_write more ka
     (emit_ (EWrite (response_bytes st reason ka th hc c))
        (set_keep_alive_flag (keep_alive_flag s && negb (connection_close rh)) s)).
Proof.
  intros Hst Hr Hh Hc more rh ka th hc.
  destruct m as [mst mh mc mm]; simpl in *; subst mst mh mc.
  subst ka th hc more rh.
  unfold send.
  cbv [bind ret raise gets modify emit keep_alive make_header_content
       is_response_chunk m_status m_headers m_content m_more_content].
  rewrite Hr.
  destruct (connection_close (check_headers hs)) eqn:Ecc; simpl;
    [rewrite andb_false_r | rewrite andb_true_r, set_keep_alive_flag_same];
    destruct mm as [[|]|]; destruct (content_length (check_headers hs));
    reflexivity.
Qed.

Lemma after_write_keep_alive_flag more ka s :
  keep_alive_flag (fst (after_write more ka s)) = keep_alive_flag s.
Proof. destruct more, ka; reflexivity. Qed.

(** A response chunk (no status, no headers) with content. *)
Lemma send_chunk s m c :
  m_status m = None -> m_headers m = None -> m_content m = Some c ->
  let more := match m_more_content m with Some b => b | None => false end in
  let ka := keep_alive_flag s && negb (stopped s)
            && match parser_ s with Some p => should_keep_alive p | None => false end in
  send m s =
    if more then
      (if Nat.ltb 0 (String.length c)
       then (emit_ (EWrite (str_hex (String.length c) ++ crlf ++ c ++ crlf)) s, Ok tt)
       else (s, Ok tt))
    else after_write false ka (emit_ (EWrite ("0" ++ crlf ++ crlf)) s).
Proof.
  intros Hst Hh Hc more ka.
  destruct m as [mst mh mc mm]; simpl in *; subst mst mh mc.
  subst more ka.
  unfold send.
  cbv [bind ret raise gets modify emit keep_alive is_response_chunk
       m_status m_headers m_content m_more_content].
  destruct mm as [[|]|]; simpl;
    destruct (Nat.ltb 0 (String.length c)); reflexivity.
Qed.



Lemma check_headers_loop_spec hs cc cl :
  connection_close (check_headers_loop hs cc cl) =
    cc || existsb (fun h => String.eqb (fst h) "Connection"
                            && String.eqb (snd h) "close") hs /\
  content_length (check_headers_loop hs cc cl) =
    cl || existsb (fun h => String.eqb (fst h) "Content-Length") hs.
Proof.
  revert cc cl; induction hs as [|[k v] hs IH]; intros cc cl; simpl.
  - rewrite !orb_false_r; auto.
  - destruct (IH (if String.eqb k "Connection" && String.eqb v "close" then true else cc)
                 (if String.eqb k "Content-Length" then true else cl)) as [H1 H2].
    rewrite H1, H2.
    destruct (String.eqb k "Connection" && String.eqb v "close"),
             (String.eqb k "Content-Length"), cc, cl; split; reflexivity.
Qed.

(** ** Concrete environments for the examples *)

Definition parser_ka : parser := {| should_keep_alive := true |}.
Definition resp500 : message :=
  {| m_status := Some 500%Z; m_headers := Some []; m_content := Some "err";
     m_more_content := None |}.
Definition const_error_response (_ : condition) : M message := ret resp500.
Definition no_log : M unit := ret tt.
Definition feed_ok (_ : bytes) : M unit := ret tt.
Definition m200_ka : message :=
  {| m_status := Some 200%Z; m_headers := Some []; m_content := Some "ok";
     m_more_content := None |}.

(** ** C2: [check_headers] *)

(** C2: [check_headers] reports [connection_close] exactly when the list
    holds the entry [Connection: close] (name and value matched exactly,
    case-sensitively), and [content_length] exactly when some entry is
    named [Content-Length]. *)
Theorem check_headers_exact (hs : list header) :
  (connection_close (check_headers hs) = true <-> In ("Connection", "close") hs) /\
  (content_length (check_headers hs) = true <->
     exists v, In ("Content-Length", v) hs).
Proof.
  destruct (check_headers_loop_spec hs false false) as [H1 H2].
  unfold check_headers; rewrite H1, H2; simpl.
  split; rewrite existsb_exists.
  - split.
    + intros [[k v] [Hin Hkv]]; simpl in Hkv.
      apply andb_true_iff in Hkv as [Hk Hv].
      apply String.eqb_eq in Hk, Hv; subst; exact Hin.
    + intros Hin; exists ("Connection", "close"); split; [exact Hin | reflexivity].
  - split.
    + intros [[k v] [Hin Hk]]; simpl in Hk.
      apply String.eqb_eq in Hk; subst; eauto.
    + intros [v Hin]; exists ("Content-Length", v); split; [exact Hin | reflexivity].
Qed.

Example check_headers_near_miss :
  check_headers [("_Connection", "close"); ("connection", "close");
                 ("content-length", "3"); ("Connection", "Close")] =
  {| connection_close := false; content_length := false |}.
Proof. reflexivity. Qed.

(** ** C1: the keep-alive decision of [send] *)

(** C1 (as stated, refuted): with the server configured with
    [keep_alive=False], a terminal response without [Connection: close],
    sent while the server runs and an active parser negotiates keep-alive,
    still closes the connection. *)
Lemma send_keep_alive_config_off :
  let s := base_state false false (Some parser_ka) (Some []) in
  let m := {| m_status := Some 200%Z; m_headers := Some []; m_content := Some "ok";
              m_more_content := None |} in
  connection_close (check_headers []) = false /\ stopped s = false /\
  parser_ s = Some parser_ka /\ should_keep_alive parser_ka = true /\
  In EClose (trace (fst (send m s))).
Proof.
  repeat split; vm_compute; auto.
Qed.

(** C1 (amended): for a first or terminal response message (status,
    headers and content present, status known), [send] writes the
    response once, announcing keep-alive iff the connection's keep-alive
    flag held before the message (it starts as the configured [keep_alive]
    and is cleared by any [Connection: close] response header), no
    [Connection: close] is among this message's headers, the server is not
    stopped, a parser is active and the parser negotiates keep-alive; a
    terminal message then closes the transport exactly when that
    conjunction fails. *)
Theorem send_keep_alive_decision s m st reason hs c
  (Hst : m_status m = Some st)
  (Hr : status_lookup st ALL_STATUS_CODES = Some reason)
  (Hh : m_headers m = Some hs) (Hc : m_content m = Some c) :
  let more := match m_more_content m with Some b => b | None => false end in
  let ka := keep_alive_flag s && negb (connection_close (check_headers hs))
            && negb (stopped s)
            && match parser_ s with Some p => should_keep_alive p | None => false end in
  snd (send m s) = Ok tt /\
  (exists th hc,
     trace (fst (send m s)) =
       app (trace s) (EWrite (response_bytes st reason ka th hc c)
                      :: (if negb more && negb ka then [EClose] else []))) /\
  keep_alive_flag (fst (send m s)) =
    keep_alive_flag s && negb (connection_close (check_headers hs)).
Proof.
  intros more ka.
  rewrite (send_response s m st reason hs c Hst Hr Hh Hc).
  cbv zeta.
  match goal with
  | |- context [after_write ?mo ?k (emit_ (EWrite (response_bytes _ _ _ ?th ?hc _)) ?s1)] =>
      destruct (after_write_trace mo k (emit_ (EWrite (response_bytes st reason k th hc c)) s1))
        as [Hr1 Ht1];
      pose proof (after_write_keep_alive_flag mo k
                    (emit_ (EWrite (response_bytes st reason k th hc c)) s1)) as Hk1;
      assert (Hka : k = ka) by (subst ka; simpl; destruct (keep_alive_flag s); reflexivity);
      rewrite Hka in Hr1, Ht1, Hk1 |- *;
      split; [exact Hr1 | split; [exists th, hc; rewrite Ht1 | rewrite Hk1; reflexivity]]
  end.
  simpl. rewrite <- app_assoc. reflexivity.
Qed.

(** ** C5: the engine-emitted [Content-Length] *)

(** C5: when a response message with a known status and content has
    headers without a [Content-Length] entry and [more_content] is false,
    the bytes [send] writes contain [Content-Length: <len(content)>\r\n],
    where the number is the decimal numeral of the content's length. *)
Theorem send_emits_content_length s m st reason hs c
  (Hst : m_status m = Some st)
  (Hr : status_lookup st ALL_STATUS_CODES = Some reason)
  (Hh : m_headers m = Some hs)
  (Hcl : content_length (check_headers hs) = false)
  (Hmore : m_more_content m <> Some true) (Hc : m_content m = Some c) :
  snd (send m s) = Ok tt /\
  (exists w post,
     trace (fst (send m s)) = app (trace s) (EWrite w :: post) /\
     contains w ("Content-Length: " ++ str_nat (String.length c) ++ crlf)) /\
  digits_value (str_nat (String.length c)) 0 = Some (Z.of_nat (String.length c)).
Proof.
  rewrite (send_response s m st reason hs c Hst Hr Hh Hc).
  cbv zeta.
  replace (match m_more_content m with Some b => b | None => false end) with false
    by (destruct (m_more_content m) as [[|]|]; congruence).
  rewrite Hcl. simpl negb. cbv iota.
  match goal with
  | |- context [after_write false ?k (emit_ (EWrite ?w) ?s1)] =>
      destruct (after_write_trace false k (emit_ (EWrite w) s1)) as [Hr1 Ht1];
      split; [exact Hr1 | split;
        [exists w, (if negb false && negb k then [EClose] else []); split
        | apply str_nat_value]]
  end.
  { rewrite Ht1. simpl. rewrite <- app_assoc. reflexivity. }
  apply contains_response.
Qed.

(** ** C6: response chunks *)

(** C6 (as stated, refuted): an intermediate chunk with empty content
    ([more_content=True]) is not written as [0\r\n\r\n]; nothing is
    written at all. *)
Lemma send_empty_intermediate_chunk :
  let s := base_state true false (Some parser_ka) (Some []) in
  let m := {| m_status := None; m_headers := None; m_content := Some "";
              m_more_content := Some true |} in
  send m s = (s, Ok tt) /\
  ~ In (EWrite (str_hex (String.length "") ++ crlf ++ "" ++ crlf)) (trace (fst (send m s))).
Proof.
  split; [reflexivity | vm_compute; tauto].
Qed.

(** C6 (amended): for a response chunk with content [c], a fragment with
    [more_content] true and non-empty content is written as
    [<hex len>\r\n<c>\r\n] and nothing else changes; one with empty content
    writes nothing and changes nothing; the terminal fragment writes
    [0\r\n\r\n] and only then are the closing rules applied (close the
    transport, or clean up for the next request when keep-alive holds). *)
Theorem send_chunk_framing s m c
  (Hs : m_status m = None) (Hh : m_headers m = None) (Hc : m_content m = Some c) :
  let more := match m_more_content m with Some b => b | None => false end in
  let ka := keep_alive_flag s && negb (stopped s)
            && match parser_ s with Some p => should_keep_alive p | None => false end in
  (more = true -> 0 < String.length c ->
     send m s = (emit_ (EWrite (str_hex (String.length c) ++ crlf ++ c ++ crlf)) s, Ok tt)) /\
  (more = true -> c = "" -> send m s = (s, Ok tt)) /\
  (more = false ->
     snd (send m s) = Ok tt /\
     trace (fst (send m s)) =
       app (trace s) (EWrite ("0" ++ crlf ++ crlf) :: (if ka then [] else [EClose])) /\
     (ka = true -> parser_ (fst (send m s)) = None)).
Proof.
  intros more ka.
  rewrite (send_chunk s m c Hs Hh Hc). fold more. fold ka.
  split; [|split].
  - intros Hm Hl. rewrite Hm. apply Nat.ltb_lt in Hl. rewrite Hl. reflexivity.
  - intros Hm Hce. rewrite Hm. subst c. reflexivity.
  - intros Hm. rewrite Hm.
    destruct (after_write_trace false ka (emit_ (EWrite ("0" ++ crlf ++ crlf)) s)) as [H1 H2].
    split; [exact H1|split].
    + rewrite H2. simpl. rewrite <- app_assoc. destruct ka; reflexivity.
    + intros Hk. rewrite Hk. reflexivity.
Qed.

(** ** C8: [close_if_idle] *)

(** C8: with no active parser, [close_if_idle] closes the transport and
    returns [True]; with an active parser it changes nothing and returns
    [False]. *)
Theorem close_if_idle_spec s :
  match parser_ s with
  | None => close_if_idle s = (emit_ EClose s, Ok true) /\
            trace (emit_ EClose s) = app (trace s) [EClose]
  | Some _ => close_if_idle s = (s, Ok false)
  end.
Proof.
  unfold close_if_idle; cbv [bind gets emit modify ret].
  destruct (parser_ s); split; reflexivity.
Qed.

(** ** C9: [write_error] always closes *)

(** C9: whatever the error handler, the send or the access log do
    (succeed, raise [RuntimeError], raise anything else), the last effect
    of [write_error] is [transport.close()]. *)
Theorem write_error_closes_transport prepare_error log_access exception s :
  exists pre, trace (fst (write_error prepare_error log_access exception s))
              = app pre [EClose].
Proof.
  unfold write_error, try_except_finally.
  destruct (try_except _ _ s) as [s2 r].
  exists (trace s2). reflexivity.
Qed.

(** ** C10: a status without headers *)

(** C10: a message with a status but no headers makes [send] raise
    [UnboundLocalError] (the header check result was never bound) with the
    state, and so the transport, untouched. *)
Theorem send_status_without_headers s m st
  (Hst : m_status m = Some st) (Hh : m_headers m = None) :
  send m s = (s, Raise UnboundLocalError).
Proof.
  destruct m as [mst mh mc mm]; simpl in *; subst mst mh.
  reflexivity.
Qed.

(** ** C7: [connection_timeout] *)

Lemma request_handler_task_emit e s :
  request_handler_task (emit_ e s) = request_handler_task s.
Proof. reflexivity. Qed.

(** C7: when the timer fires, if the time elapsed since the last completed
    request is below the request timeout, the timer is re-armed for exactly
    [timeout - elapsed] and nothing else happens; otherwise the request
    stream task and the request handler task, when present, are cancelled
    and [write_error] runs with a [RequestTimeout]. *)
Theorem connection_timeout_spec prepare_error log_access s l t
  (Hl : last_request_time s = Some l) (Ht : request_timeout s = Some t) :
  connection_timeout prepare_error log_access s =
    if (now s - l <? t)%Z then
      (set_timeout_handler (Some (t - (now s - l)))%Z
         (emit_ (ECallLater (t - (now s - l))%Z) s), Ok tt)
    else
      write_error prepare_error log_access (RequestTimeout "Request Timeout")
        (let s1 := match request_stream_task s with
                   | Some k => emit_ (ECancel k) s
                   | None => s
                   end in
         match request_handler_task s with
         | Some k => emit_ (ECancel k) s1
         | None => s1
         end).
Proof.
  unfold connection_timeout; cbv [bind gets emit modify ret].
  rewrite Hl, Ht.
  destruct (now s - l <? t)%Z; [reflexivity|].
  destruct (request_stream_task s); cbv beta iota;
    rewrite ?request_handler_task_emit;
    destruct (request_handler_task s); reflexivity.
Qed.

(** ** C4: [PayloadTooLarge] *)

Fixpoint rep_a (n : nat) : bytes :=
  match n with O => "" | S k => String "a"%char (rep_a k) end.

(** C4 (as stated, refuted): the byte counter is per request, not per
    connection: two 60-byte chunks on one connection with a ceiling of 100,
    separated by a keep-alive response, never reach [write_error] (whose
    last effect would be a close). *)
Lemma payload_counter_reset_between_requests :
  let s := base_state true false (Some parser_ka) (Some []) in
  let recv := data_received const_error_response no_log feed_ok parser_ka (ret tt) in
  let run := (recv (rep_a 60) ;; send m200_ka ;; recv (rep_a 60)) s in
  (request_max_size s < Z.of_nat (String.length (rep_a 60) + String.length (rep_a 60)))%Z /\
  length (trace (fst run)) = 1 /\ ~ In EClose (trace (fst run)) /\ snd run = Ok tt.
Proof.
  vm_compute. split; [reflexivity|]. split; [reflexivity|]. split; [|reflexivity].
  intros [H | []]; discriminate H.
Qed.

(** C4 (amended): once the byte counter of the current request (reset
    when a keep-alive response completes) exceeds [request_max_size],
    [data_received] enters [write_error] with a
    [PayloadTooLarge] before the chunk is fed to the parser; and a header
    whose lower-cased name is [content-length] with a value above the
    ceiling enters [write_error] with a [PayloadTooLarge] before the header
    is stored. *)
Theorem payload_too_large_enters_write_error prepare_error log_access
    feed_data fresh_parser upgrade :
  (forall s data,
     (request_max_size s < total_request_size s + Z.of_nat (String.length data))%Z ->
     data_received prepare_error log_access feed_data fresh_parser upgrade data s =
       (write_error prepare_error log_access (PayloadTooLarge "Payload Too Large") ;;
        data_received_parse prepare_error log_access feed_data fresh_parser upgrade data)
       (set_total_request_size
          (total_request_size s + Z.of_nat (String.length data))%Z s)) /\
  (forall s name value n,
     lower name = "content-length" -> py_int value = Some n ->
     (request_max_size s < n)%Z ->
     on_header prepare_error log_access name value s =
       (write_error prepare_error log_access (PayloadTooLarge "Payload Too Large") ;;
        on_header_store (lower name) value) s).
Proof.
  split.
  - intros s data Hgt.
    unfold data_received; cbv [bind gets modify].
    cbn [request_max_size total_request_size set_total_request_size].
    apply Z.ltb_lt in Hgt. rewrite Hgt. reflexivity.
  - intros s name value n Hlow Hn Hgt.
    unfold on_header; cbv zeta. rewrite Hlow, Hn, String.eqb_refl.
    cbv [bind gets]. apply Z.ltb_lt in Hgt. rewrite Hgt. reflexivity.
Qed.

(** ** C3: header names in [on_header] *)

(** C3 (as stated, refuted): the stored header name is the lower-cased
    one, not the name as received. *)
Lemma on_header_lowercases_stored_name :
  let s := base_state true false (Some parser_ka) (Some []) in
  headers (fst (on_header const_error_response no_log "Host" "example.org" s))
    = Some [("host", "example.org")] /\
  ~ In ("Host", "example.org") [("host", "example.org")].
Proof.
  split; [reflexivity | simpl; intros [H | []]; discriminate].
Qed.

Lemma lower_char_idem c : lower_char (lower_char c) = lower_char c.
Proof. destruct c as [[] [] [] [] [] [] [] []]; reflexivity. Qed.

Lemma lower_idem n : lower (lower n) = lower n.
Proof. induction n as [|c n IH]; simpl; [reflexivity | now rewrite lower_char_idem, IH]. Qed.

(** C3 (amended): [on_header] lower-cases the name and uses only the
    lower-cased name: the result is the same for any letter case of the
    name; the content-length ceiling check fires on the lower-cased name
    (the header is stored after [write_error], as [content-length]); the
    upgrade detection fires on the lower-cased name; and every other
    accepted header is appended as (lower-cased name, value), the value
    verbatim, with nothing else changed. *)
Theorem on_header_stores_lowercased prepare_error log_access name value s l
  (Hh : headers s = Some l) :
  on_header prepare_error log_access name value s =
    on_header prepare_error log_access (lower name) value s /\
  (forall n, lower name = "content-length" -> py_int value = Some n ->
     (request_max_size s < n)%Z ->
     on_header prepare_error log_access name value s =
       (write_error prepare_error log_access (PayloadTooLarge "Payload Too Large") ;;
        on_header_store "content-length" value) s) /\
  (lower name = "upgrade" ->
     on_header prepare_error log_access name value s =
       (set_parser_headers (parser_ s) (Some (app l [("upgrade", value)]))
          (set_is_upgrade true s), Ok tt)) /\
  (lower name <> "upgrade" ->
   (lower name = "content-length" ->
      exists n, py_int value = Some n /\ (n <= request_max_size s)%Z) ->
     on_header prepare_error log_access name value s =
       (set_parser_headers (parser_ s) (Some (app l [(lower name, value)])) s, Ok tt)).
Proof.
  split; [|split; [|split]].
  - unfold on_header; cbv zeta. rewrite lower_idem. reflexivity.
  - intros n Hlow Hn Hgt.
    unfold on_header; cbv zeta. rewrite Hlow, Hn, String.eqb_refl.
    cbv [bind gets]. apply Z.ltb_lt in Hgt. rewrite Hgt. reflexivity.
  - intros Hlow.
    unfold on_header, on_header_store; cbv zeta. rewrite Hlow.
    cbv [bind gets modify ret]. simpl. rewrite Hh. reflexivity.
  - intros Hup Hok.
    unfold on_header, on_header_store; cbv zeta.
    cbv [bind gets modify ret].
    apply String.eqb_neq in Hup. rewrite Hup.
    destruct (String.eqb (lower name) "content-length") eqn:E.
    + apply String.eqb_eq in E. destruct (Hok E) as [n [Hn Hle]].
      rewrite Hn.
      replace (Z.ltb (request_max_size s) n) with false
        by (symmetry; apply Z.ltb_ge; exact Hle).
      simpl. rewrite Hh. reflexivity.
    + simpl. rewrite Hh. reflexivity.
Qed.

(** ** Witnesses: the theorems with hypotheses at concrete inputs *)

Definition s_ka : proto := base_state true false (Some parser_ka) (Some []).

Definition m200 : message :=
  {| m_status := Some 200%Z; m_headers := Some [("Content-Type", "text/plain")];
     m_content := Some "hello"; m_more_content := None |}.

Definition m_chunk : message :=
  {| m_status := None; m_headers := None; m_content := Some "abc";
     m_more_content := Some true |}.

Definition m_no_headers : message :=
  {| m_status := Some 200%Z; m_headers := None; m_content := Some "hello";
     m_more_content := None |}.

Definition timer_state : proto :=
  {| trace := []; stopped := false; parser_ := None; headers := None;
     keep_alive_flag := true; has_log := false; request_timeout := Some 60%Z;
     request_max_size := 100%Z; total_request_size := 0%Z;
     timeout_handler := None; last_request_time := Some 0%Z; now := 30%Z;
     request_handler_task := None; request_stream_task := None;
     is_upgrade := false |}.

Lemma send_keep_alive_decision_witness :
  status_lookup 200 ALL_STATUS_CODES = Some "OK" /\ snd (send m200 s_ka) = Ok tt.
Proof.
  split; [reflexivity|].
  exact (proj1 (send_keep_alive_decision s_ka m200 200 "OK"
                  [("Content-Type", "text/plain")] "hello"
                  eq_refl eq_refl eq_refl eq_refl)).
Defined.

Lemma send_emits_content_length_witness :
  content_length (check_headers [("Content-Type", "text/plain")]) = false /\
  snd (send m200 s_ka) = Ok tt.
Proof.
  split; [reflexivity|].
  refine (proj1 (send_emits_content_length s_ka m200 200 "OK"
                   [("Content-Type", "text/plain")] "hello"
                   eq_refl eq_refl eq_refl eq_refl _ eq_refl)).
  simpl; discriminate.
Defined.

Lemma send_chunk_framing_witness :
  0 < String.length "abc" /\
  send m_chunk s_ka = (emit_ (EWrite (str_hex 3 ++ crlf ++ "abc" ++ crlf)) s_ka, Ok tt).
Proof.
  split; [simpl; lia|].
  refine (proj1 (send_chunk_framing s_ka m_chunk "abc" eq_refl eq_refl eq_refl)
            eq_refl _).
  simpl; lia.
Defined.

Lemma send_status_without_headers_witness :
  m_headers m_no_headers = None /\
  send m_no_headers s_ka = (s_ka, Raise UnboundLocalError).
Proof.
  split; [reflexivity|].
  exact (send_status_without_headers s_ka m_no_headers 200 eq_refl eq_refl).
Defined.

Lemma connection_timeout_spec_witness :
  last_request_time timer_state = Some 0%Z /\
  connection_timeout const_error_response no_log timer_state =
    (set_timeout_handler (Some 30%Z) (emit_ (ECallLater 30%Z) timer_state), Ok tt).
Proof.
  split; [reflexivity|].
  rewrite (connection_timeout_spec const_error_response no_log timer_state 0 60
             eq_refl eq_refl).
  reflexivity.
Defined.

Lemma payload_too_large_enters_write_error_witness :
  (request_max_size (set_total_request_size 100 s_ka) <
     total_request_size (set_total_request_size 100 s_ka) + Z.of_nat (String.length "x"))%Z /\
  data_received const_error_response no_log feed_ok parser_ka (ret tt) "x"
      (set_total_request_size 100 s_ka) =
    (write_error const_error_response no_log (PayloadTooLarge "Payload Too Large") ;;
     data_received_parse const_error_response no_log feed_ok parser_ka (ret tt) "x")
      (set_total_request_size 101 s_ka) /\
  on_header const_error_response no_log "Content-Length" "1_000" s_ka =
    (write_error const_error_response no_log (PayloadTooLarge "Payload Too Large") ;;
     on_header_store "content-length" "1_000") s_ka.
Proof.
  destruct (payload_too_large_enters_write_error const_error_response no_log
              feed_ok parser_ka (ret tt)) as [H1 H2].
  split; [vm_compute; reflexivity|split].
  - exact (H1 (set_total_request_size 100 s_ka) "x" ltac:(vm_compute; reflexivity)).
  - exact (H2 s_ka "Content-Length" "1_000" 1000%Z eq_refl eq_refl
              ltac:(vm_compute; reflexivity)).
Defined.

Lemma on_header_stores_lowercased_witness :
  headers s_ka = Some [] /\
  on_header const_error_response no_log "Host" "example.org" s_ka =
    (set_parser_headers (parser_ s_ka) (Some [("host", "example.org")]) s_ka, Ok tt) /\
  on_header const_error_response no_log "CONTENT-LENGTH" "1_000" s_ka =
    (write_error const_error_response no_log (PayloadTooLarge "Payload Too Large") ;;
     on_header_store "content-length" "1_000") s_ka.
Proof.
  split; [reflexivity|]. split.
  - destruct (on_header_stores_lowercased const_error_response no_log
                "Host" "example.org" s_ka [] eq_refl) as (_ & _ & _ & H).
    apply H.
    + intros E; vm_compute in E; discriminate E.
    + intros E; vm_compute in E; discriminate E.
  - destruct (on_header_stores_lowercased const_error_response no_log
                "CONTENT-LENGTH" "1_000" s_ka [] eq_refl) as (_ & H & _ & _).
    apply (H 1000%Z); vm_compute; reflexivity.
Defined.

End HttpFacts.

(** * Further properties of the protocol *)

Module HttpExtra.
Import Http HttpFacts.

(** ** Steps that keep a preorder on the state *)

Section Monotone.

Variable R : proto -> proto -> Prop.
Hypothesis R_refl : forall s, R s s.
Hypothesis R_trans : forall a b c, R a b -> R b c -> R a c.

Definition mono {A} (c : M A) : Prop := forall s, R s (fst (c s)).

Lemma mono_ret {A} (a : A) : mono (ret a).
Proof. intros s; apply R_refl. Qed.

Lemma mono_raise {A} (e : exn) : mono (A := A) (raise e).
Proof. intros s; apply R_refl. Qed.

Lemma mono_gets {A} (f : proto -> A) : mono (gets f).
Proof. intros s; apply R_refl. Qed.

Lemma mono_modify f : (forall s, R s (f s)) -> mono (modify f).
Proof. intros H s; apply H. Qed.

Lemma mono_bind {A B} (c : M A) (k : A -> M B) :
  mono c -> (forall a, mono (k a)) -> mono (bind c k).
Proof.
  intros Hc Hk s; unfold bind.
  specialize (Hc s). destruct (c s) as [s1 [a|e]]; simpl in *.
  - eapply R_trans; [exact Hc | apply Hk].
  - exact Hc.
Qed.

Hypothesis R_emit : forall e s, R s (emit_ e s).
Hypothesis R_flag_off : forall s, R s (set_keep_alive_flag false s).
Hypothesis R_last : forall t s, R s (set_last_request_time t s).
Hypothesis R_cleanup : forall s, R s (cleanup_ s).

Lemma mono_after_write more ka : mono (after_write more ka).
Proof.
  intros s; destruct more, ka; simpl; auto.
  eapply R_trans; [apply R_last | apply R_cleanup].
Qed.

Ltac mono_step :=
  match goal with
  | |- mono (bind _ _) => apply mono_bind; [|intro]
  | |- mono (ret _) => apply mono_ret
  | |- mono (raise _) => apply mono_raise
  | |- mono (gets _) => apply mono_gets
  | |- mono (emit _) => apply mono_modify, R_emit
  | |- mono (modify (set_keep_alive_flag false)) => apply mono_modify, R_flag_off
  | |- mono (after_write _ _) => apply mono_after_write
  | |- mono keep_alive => apply mono_gets
  | |- mono (make_header_content _ _ _ _) =>
      unfold make_header_content
  | |- mono (match ?x with _ => _ end) => destruct x
  | |- mono (if ?b then _ else _) => destruct b
  end.

Lemma mono_send m : mono (send m).
Proof. unfold send; cbv zeta; repeat mono_step. Qed.

End Monotone.

(** [send] never turns the keep-alive flag back on: once a response
    carried [Connection: close], every later response on the connection
    is sent with [Connection: close]. *)
Theorem send_never_reenables_keep_alive m s :
  keep_alive_flag (fst (send m s)) = true -> keep_alive_flag s = true.
Proof.
  revert s.
  apply (mono_send (fun s s' => keep_alive_flag s' = true -> keep_alive_flag s = true));
    simpl; auto; intros; discriminate.
Qed.

(** When [send] raises (missing content, a status without headers, an
    unknown status, ...), it has written nothing: every exception of
    [send] comes before its single [transport.write]. *)
Theorem send_raises_before_writing m s e :
  snd (send m s) = Raise e -> trace (fst (send m s)) = trace s.
Proof.
  destruct m as [st hs c mm].
  unfold send; cbv zeta.
  cbv [bind ret raise gets modify emit keep_alive make_header_content
       is_response_chunk after_write m_status m_headers m_content m_more_content].
  repeat (simpl; match goal with
          | |- context [match ?x with _ => _ end] =>
              lazymatch type of x with
              | prod _ _ => fail
              | _ => destruct x
              end
          end);
  simpl; intros H; try discriminate H; reflexivity.
Qed.

(** ** The header block of a response *)

Definition not_connection (h : header) : bool := negb (String.eqb (fst h) "Connection").

Lemma join_headers_filter hs :
  join_headers hs = join_headers (filter not_connection hs).
Proof.
  induction hs as [|[k v] hs IH]; [reflexivity|].
  unfold not_connection in *; simpl.
  destruct (String.eqb k "Connection") eqn:E; simpl; [exact IH|].
  rewrite E, IH. reflexivity.
Qed.

(** The engine drops every header named [Connection] the application
    supplies: the header block is the same as for the list without them
    (the engine writes its own [Connection] line). *)
Theorem make_header_content_drops_connection hs rh content more s :
  make_header_content (Some hs) rh content more s =
  make_header_content (Some (filter not_connection hs)) rh content more s.
Proof.
  unfold make_header_content; cbv [bind ret raise].
  rewrite <- join_headers_filter. reflexivity.
Qed.

(** ** [send] with an unknown status *)

(** A message whose status is not in [ALL_STATUS_CODES] raises [KeyError]
    and writes nothing; a [Connection: close] among its headers has still
    cleared the keep-alive flag. *)
Theorem send_unknown_status s m st hs c
  (Hst : m_status m = Some st)
  (Hr : status_lookup st ALL_STATUS_CODES = None)
  (Hh : m_headers m = Some hs) (Hc : m_content m = Some c) :
  send m s =
    (set_keep_alive_flag (keep_alive_flag s && negb (connection_close (check_headers hs))) s,
     Raise KeyError).
Proof.
  destruct m as [mst mh mc mm]; simpl in Hst, Hh, Hc; subst mst mh mc.
  unfold send.
  cbv [bind ret raise gets modify emit keep_alive make_header_content
       is_response_chunk m_status m_headers m_content m_more_content].
  rewrite Hr.
  destruct (connection_close (check_headers hs)); simpl;
    [rewrite andb_false_r | rewrite andb_true_r, set_keep_alive_flag_same];
    destruct mm as [[|]|]; destruct (content_length (check_headers hs)); reflexivity.
Qed.

(** ** [write_error] when building or sending the response fails *)

Lemma write_error_ends_with_close pe la cnd s :
  exists pre, trace (fst (write_error pe la cnd s)) = app pre [EClose].
Proof.
  unfold write_error, try_except_finally.
  destruct (try_except _ _ s) as [s2 r]. exists (trace s2). reflexivity.
Qed.

Definition bail_out_logged (s : proto) : proto :=
  emit_ (ELog "Exception")
    (emit_ (ELog "Transport closed and exception experienced during error handling") s).

(** If building the error response raises, [write_error] closes the
    transport; a [RuntimeError] then escapes as [AttributeError] (the
    handler's log message reads [self.request], which the protocol does not
    have), any other exception is logged through [bail_out] and
    swallowed. *)
Theorem write_error_prepare_raises pe la cnd s s1 e
  (H : pe cnd s = (s1, Raise e)) :
  write_error pe la cnd s =
    match e with
    | RuntimeError => (emit_ EClose s1, Raise AttributeError)
    | _ => (emit_ EClose (bail_out_logged s1), Ok tt)
    end.
Proof.
  unfold write_error, try_except_finally, try_except.
  cbv [bind]. rewrite H. destruct e; reflexivity.
Qed.

Lemma send_no_headers_raises s m st :
  m_status m = Some st -> m_headers m = None -> send m s = (s, Raise UnboundLocalError).
Proof.
  intros Hst Hh. destruct m as [mst mh mc mm]; simpl in *; subst mst mh. reflexivity.
Qed.

(** An error response with a status but no headers is never written:
    [send] raises, [write_error] logs the failure and closes. *)
Theorem write_error_headerless_response pe la cnd s s1 m st
  (H : pe cnd s = (s1, Ok m)) (Hst : m_status m = Some st) (Hh : m_headers m = None) :
  write_error pe la cnd s = (emit_ EClose (bail_out_logged s1), Ok tt).
Proof.
  unfold write_error, try_except_finally, try_except.
  cbv [bind]. rewrite H. rewrite (send_no_headers_raises s1 m st Hst Hh).
  reflexivity.
Qed.

(** ** [data_received] when the parser rejects the data *)

(** When the parser rejects a chunk ([HttpParserError]), [data_received]
    answers through [write_error], whose last effect closes the
    transport, whatever the size check and the parser's callbacks did
    before. *)
Theorem data_received_parse_error_closes pe la fd fp up data s
  (Hfeed : forall s', parser_ s' <> None -> snd (fd data s') = Raise HttpParserError) :
  exists pre, trace (fst (data_received pe la fd fp up data s)) = app pre [EClose].
Proof.
  assert (Hf : forall s', parser_ s' <> None ->
                 exists s'', fd data s' = (s'', Raise HttpParserError)).
  { intros s' Hp. specialize (Hfeed s' Hp). destruct (fd data s') as [s'' r].
    simpl in Hfeed. subst r. exists s''. reflexivity. }
  unfold data_received, data_received_parse, try_except.
  cbv [bind gets modify ret].
  match goal with
  | |- context [if ?b then _ else _] => destruct b
  end.
  - destruct (write_error pe la _ _) as [s1 [[]|e]] eqn:Hw.
    + destruct (parser_ s1) eqn:Ep; simpl;
        match goal with
        | |- context [fd data ?s2] =>
            destruct (Hf s2) as [s3 E]; [simpl; rewrite ?Ep; discriminate|]
        end;
        rewrite E; apply write_error_ends_with_close.
    + simpl. destruct (write_error_ends_with_close pe la (PayloadTooLarge "Payload Too Large")
                         (set_total_request_size
                            (total_request_size s + Z.of_nat (String.length data)) s))
        as [pre Hpre].
      rewrite Hw in Hpre. exists pre. exact Hpre.
  - simpl. destruct (parser_ s) eqn:Ep; simpl;
      match goal with
      | |- context [fd data ?s2] =>
          destruct (Hf s2) as [s3 E]; [simpl; rewrite ?Ep; discriminate|]
      end;
      rewrite E; apply write_error_ends_with_close.
Qed.

(** ** [on_header] edge cases *)

(** A [Content-Length] header (any letter case) whose value is not an
    integer makes [on_header] raise [ValueError] before storing anything:
    the state is unchanged. *)
Theorem on_header_bad_content_length pe la name value s
  (Hn : lower name = "content-length") (Hv : py_int value = None) :
  on_header pe la name value s = (s, Raise ValueError).
Proof.
  unfold on_header; cbv zeta. rewrite Hn, Hv, String.eqb_refl. reflexivity.
Qed.

(** An [Upgrade] header in any letter case marks the request as an
    upgrade and is stored under the name [upgrade]. *)
Theorem on_header_upgrade pe la name value s l
  (Hn : lower name = "upgrade") (Hh : headers s = Some l) :
  on_header pe la name value s =
    (set_parser_headers (parser_ s) (Some (app l [("upgrade", value)]))
       (set_is_upgrade true s), Ok tt).
Proof.
  unfold on_header, on_header_store; cbv zeta. rewrite Hn.
  cbv [bind gets modify ret]. simpl. rewrite Hh. reflexivity.
Qed.

(** ** A keep-alive response ends the request *)

(** A complete response ([more_content] false) sent while the connection
    stays alive resets the per-request state: parser, headers, tasks and
    the size counter are cleared, the idle timer restarts from [now], and
    the next [close_if_idle] closes the connection. *)
Theorem send_keep_alive_resets_request s m st reason hs c
  (Hst : m_status m = Some st)
  (Hr : status_lookup st ALL_STATUS_CODES = Some reason)
  (Hh : m_headers m = Some hs) (Hc : m_content m = Some c)
  (Hmore : m_more_content m <> Some true)
  (Hka : keep_alive_flag s && negb (connection_close (check_headers hs))
         && negb (stopped s)
         && match parser_ s with Some p => should_keep_alive p | None => false end = true) :
  let s' := fst (send m s) in
  snd (send m s) = Ok tt /\ parser_ s' = None /\ headers s' = None /\
  total_request_size s' = 0%Z /\ request_handler_task s' = None /\
  request_stream_task s' = None /\ last_request_time s' = Some (now s) /\
  keep_alive_flag s' = true /\ close_if_idle s' = (emit_ EClose s', Ok true).
Proof.
  intros s'.
  pose proof (send_response s m st reason hs c Hst Hr Hh Hc) as E. cbv zeta in E.
  assert (Hm : match m_more_content m with Some b => b | None => false end = false)
    by (destruct (m_more_content m) as [[|]|]; congruence).
  rewrite Hm, Hka in E. subst s'. rewrite E.
  assert (Hf : keep_alive_flag s && negb (connection_close (check_headers hs)) = true)
    by (destruct (keep_alive_flag s), (connection_close (check_headers hs));
        simpl in Hka |- *; congruence).
  unfold after_write. cbv [negb andb bind gets modify ret].
  simpl. repeat split; try reflexivity. exact Hf.
Qed.

(** ** [HTTPResponse.get_message] sent by [send] *)

Lemma contains_app_l a b t : contains b t -> contains (a ++ b) t.
Proof.
  intros [p [q H]]. exists (a ++ p), q. subst b.
  repeat rewrite str_app_assoc. reflexivity.
Qed.

Lemma contains_join_headers hs k v :
  In (k, v) hs -> k <> "Connection" ->
  contains (join_headers hs) (k ++ ": " ++ v ++ crlf).
Proof.
  induction hs as [|[k' v'] hs IH]; intros Hin Hk; [destruct Hin|].
  cbn [join_headers]. destruct Hin as [Heq | Hin].
  - injection Heq as <- <-.
    apply String.eqb_neq in Hk. rewrite Hk.
    exists "", (join_headers hs). repeat rewrite str_app_assoc. reflexivity.
  - destruct (String.eqb k' "Connection").
    + exact (IH Hin Hk).
    + do 4 apply contains_app_l. exact (IH Hin Hk).
Qed.

Lemma contains_response_header_content st reason ka th hc c t :
  contains hc t -> contains (response_bytes st reason ka th hc c) t.
Proof.
  intros [p [q H]]. subst hc. rewrite response_bytes_eq.
  exists ("HTTP/1.1 " ++ str_Z st ++ " " ++ reason ++ crlf ++
          "Connection: " ++ (if ka then "keep-alive" else "close") ++ crlf ++ th ++ p),
         (q ++ crlf ++ c).
  repeat rewrite str_app_assoc. reflexivity.
Qed.

Lemma response_bytes_ends_with_content st reason ka th hc c :
  exists pre, response_bytes st reason ka th hc c = pre ++ c.
Proof.
  rewrite response_bytes_eq.
  exists ("HTTP/1.1 " ++ str_Z st ++ " " ++ reason ++ crlf ++
          "Connection: " ++ (if ka then "keep-alive" else "close") ++ crlf ++
          th ++ hc ++ crlf).
  repeat rewrite str_app_assoc. reflexivity.
Qed.

Lemma In_dict_set k v d : In (k, v) (PyDict.dict_set k v d).
Proof.
  induction d as [|[k' v'] d IH]; simpl; [left; reflexivity|].
  destruct (String.eqb k' k) eqn:E.
  - apply String.eqb_eq in E. subst k'. left. reflexivity.
  - right. exact IH.
Qed.

Lemma map_pair_id (l : list (string * string)) :
  map (fun nv => (fst nv, snd nv)) l = l.
Proof. induction l as [|[a b] l IH]; simpl; [reflexivity | now rewrite IH]. Qed.

(** The response [write_error] builds, [HTTPResponse(...).get_message(False)],
    is sent whole when its status is known: [send] returns normally,
    writes exactly once (followed at most by a close), and the written bytes carry the [Content-Type] line
    (the header passed in, else the [content_type] argument) and end
    with the body. *)
Theorem http_response_sent s body_ st hdrs ct bb reason
  (Hr : status_lookup st ALL_STATUS_CODES = Some reason) :
  let r := Response.HTTPResponse body_ st hdrs ct bb in
  let s' := fst (send (Response.get_message r false) s) in
  snd (send (Response.get_message r false) s) = Ok tt /\
  exists w post, trace s' = app (trace s) (EWrite w :: post) /\
    (post = [] \/ post = [EClose]) /\
    contains w ("Content-Type: " ++
                PyDict.dict_get "Content-Type"
                  (match hdrs with Some h => h | None => [] end) ct ++ crlf) /\
    exists pre, w = pre ++ match body_ with Some t => t | None => bb end.
Proof.
  intros r s'.
  set (hs0 := match hdrs with Some h => h | None => [] end).
  set (v := PyDict.dict_get "Content-Type" hs0 ct).
  set (c := match body_ with Some t => t | None => bb end).
  set (hs := PyDict.dict_set "Content-Type" v hs0).
  assert (Hh : m_headers (Response.get_message r false) = Some hs).
  { cbn. unfold Response.parse_headers. rewrite map_pair_id. reflexivity. }
  pose proof (send_response s (Response.get_message r false) st reason hs c
                eq_refl Hr Hh eq_refl) as E.
  cbv zeta in E. cbn [m_more_content Response.get_message] in E.
  subst s'. rewrite E.
  match goal with
  | |- context [after_write false ?ka (emit_ (EWrite ?w) ?s1)] =>
      set (wr := w); set (k := ka); set (s1' := s1)
  end.
  destruct (after_write_trace false k (emit_ (EWrite wr) s1')) as [Hok Htr].
  split; [exact Hok|].
  exists wr, (if negb false && negb k then [EClose] else []).
  rewrite Htr. split; [| split; [| split]].
  - subst s1'. destruct s; cbn. rewrite <- app_assoc. reflexivity.
  - destruct k; [left | right]; reflexivity.
  - subst wr. apply contains_response_header_content. apply contains_app_l.
    apply (contains_join_headers hs "Content-Type" v); [apply In_dict_set | discriminate].
  - subst wr. apply response_bytes_ends_with_content.
Qed.

(** ** Concrete instances *)

Definition m299_close : message :=
  {| m_status := Some 299%Z; m_headers := Some [("Connection", "close")];
     m_content := Some "x"; m_more_content := None |}.
Definition failing_error_response (_ : condition) : M message := raise TypeError.
Definition headerless_error_response (_ : condition) : M message := ret m_no_headers.
(** A parser that runs a callback (storing a header) before rejecting. *)
Definition feed_store_then_reject (_ : bytes) : M unit :=
  modify (fun s => set_parser_headers (parser_ s) (Some [("host", "a")]) s) ;;
  raise HttpParserError.

Lemma send_never_reenables_keep_alive_witness :
  keep_alive_flag (fst (send m200 s_ka)) = true /\ keep_alive_flag s_ka = true.
Proof.
  split; [vm_compute; reflexivity|].
  apply (send_never_reenables_keep_alive m200 s_ka). vm_compute. reflexivity.
Defined.

Lemma send_raises_before_writing_witness :
  snd (send m_no_headers s_ka) = Raise UnboundLocalError /\
  trace (fst (send m_no_headers s_ka)) = trace s_ka.
Proof.
  split; [vm_compute; reflexivity|].
  apply (send_raises_before_writing m_no_headers s_ka UnboundLocalError).
  vm_compute. reflexivity.
Defined.

Lemma send_unknown_status_witness :
  status_lookup 299 ALL_STATUS_CODES = None /\
  send m299_close s_ka = (set_keep_alive_flag false s_ka, Raise KeyError).
Proof.
  split; [vm_compute; reflexivity|].
  rewrite (send_unknown_status s_ka m299_close 299 [("Connection", "close")] "x"
             eq_refl ltac:(vm_compute; reflexivity) eq_refl eq_refl).
  reflexivity.
Defined.

Lemma write_error_prepare_raises_witness :
  failing_error_response (InvalidUsage "Bad Request") s_ka = (s_ka, Raise TypeError) /\
  write_error failing_error_response no_log (InvalidUsage "Bad Request") s_ka =
    (emit_ EClose (bail_out_logged s_ka), Ok tt).
Proof.
  split; [reflexivity|].
  exact (write_error_prepare_raises failing_error_response no_log
           (InvalidUsage "Bad Request") s_ka s_ka TypeError eq_refl).
Defined.

Lemma write_error_headerless_response_witness :
  m_headers m_no_headers = None /\
  write_error headerless_error_response no_log (InvalidUsage "Bad Request") s_ka =
    (emit_ EClose (bail_out_logged s_ka), Ok tt).
Proof.
  split; [reflexivity|].
  exact (write_error_headerless_response headerless_error_response no_log
           (InvalidUsage "Bad Request") s_ka s_ka m_no_headers 200 eq_refl eq_refl eq_refl).
Defined.

Lemma data_received_parse_error_closes_witness :
  (forall s', parser_ s' <> None ->
              snd (feed_store_then_reject "x" s') = Raise HttpParserError) /\
  exists pre, trace (fst (data_received const_error_response no_log feed_store_then_reject
                            parser_ka (ret tt) "x" s_ka)) = app pre [EClose].
Proof.
  assert (H : forall s', parser_ s' <> None ->
                snd (feed_store_then_reject "x" s') = Raise HttpParserError)
    by (intros s' _; reflexivity).
  split; [exact H|].
  exact (data_received_parse_error_closes const_error_response no_log feed_store_then_reject
           parser_ka (ret tt) "x" s_ka H).
Defined.

Lemma on_header_bad_content_length_witness :
  lower "Content-Length" = "content-length" /\ py_int "12a" = None /\
  on_header const_error_response no_log "Content-Length" "12a" s_ka = (s_ka, Raise ValueError).
Proof.
  split; [reflexivity|]. split; [reflexivity|].
  exact (on_header_bad_content_length const_error_response no_log
           "Content-Length" "12a" s_ka eq_refl eq_refl).
Defined.

Lemma on_header_upgrade_witness :
  lower "UPGRADE" = "upgrade" /\
  on_header const_error_response no_log "UPGRADE" "websocket" s_ka =
    (set_parser_headers (parser_ s_ka) (Some [("upgrade", "websocket")])
       (set_is_upgrade true s_ka), Ok tt).
Proof.
  split; [reflexivity|].
  exact (on_header_upgrade const_error_response no_log "UPGRADE" "websocket" s_ka []
           eq_refl eq_refl).
Defined.

Lemma send_keep_alive_resets_request_witness :
  keep_alive_flag s_ka && negb (connection_close (check_headers [("Content-Type", "text/plain")]))
    && negb (stopped s_ka)
    && match parser_ s_ka with Some p => should_keep_alive p | None => false end = true /\
  close_if_idle (fst (send m200 s_ka)) = (emit_ EClose (fst (send m200 s_ka)), Ok true).
Proof.
  split; [vm_compute; reflexivity|].
  pose proof (send_keep_alive_resets_request s_ka m200 200 "OK"
                [("Content-Type", "text/plain")] "hello"
                eq_refl ltac:(vm_compute; reflexivity) eq_refl eq_refl
                ltac:(discriminate) ltac:(vm_compute; reflexivity)) as H.
  cbv zeta in H. destruct H as (_ & _ & _ & _ & _ & _ & _ & _ & H). exact H.
Defined.

Lemma http_response_sent_witness :
  status_lookup 200 ALL_STATUS_CODES = Some "OK" /\
  snd (send (Response.get_message
               (Response.HTTPResponse (Some "hi") 200 None "text/html" "") false) s_ka) = Ok tt.
Proof.
  split; [vm_compute; reflexivity|].
  exact (proj1 (http_response_sent s_ka (Some "hi") 200 None "text/html" "" "OK"
                  ltac:(vm_compute; reflexivity))).
Defined.

End HttpExtra.
